(** * histo-py: an undo/redo history over reversible commands

    Shallow embedding of [command.py] (Command, CommandInstance) and of
    [history.py] (the three exception classes and DoubleStackHistory), with
    the properties of the two-stack engine proved about the embedding.

    Conventions of the embedding.
    - A Python list is a Rocq list in the same order: index 0 is the head,
      [l.append(e)] is [l ++ [e]], [l[-1]] and [l.pop()] act on the last
      element and raise IndexError on the empty list.
    - A Python int is a [Z]; [len] never returns a negative one.
    - The external, mutable context the commands act on is a value of an
      arbitrary type [W], threaded through every call.  A method of a
      command maps the context to an outcome: it returns a value and a new
      context, or raises and leaves the context it had reached.  The two
      stacks belong to the history alone: a command holds no reference to
      the history, so its methods act on the context only.
    - A method of the history runs on the history object and the context.
      When it raises, the mutations done so far stay (Python has no
      rollback), so an exceptional result carries the state as well.
    - An exception that leaves a command's method travels through the
      history unchanged (history.py has no try statement); the embedding
      keeps it apart from the exceptions of history.py's own raise
      statements by the constructor [Propagated]. *)

From Stdlib Require Import String List ZArith Lia Bool Permutation.
Import ListNotations.
Open Scope Z_scope.

(* ------------------------------------------------------------------ *)
(** ** The Python list operations the source uses *)

Module Py.
Section ListOps.
Context {A : Type}.

(** [len(l)] *)
Definition len (l : list A) : Z := Z.of_nat (List.length l).

(** [l.append(e)] *)
Definition append (l : list A) (e : A) : list A := l ++ [e].

(** [l.clear()] *)
Definition clear (l : list A) : list A := [].

(** [l[-1]]; [None] stands for IndexError. *)
Fixpoint getitem_last (l : list A) : option A :=
  match l with
  | [] => None
  | x :: t => match t with [] => Some x | _ :: _ => getitem_last t end
  end.

(** [l.pop()]: the removed element and the remaining list; [None] stands
    for IndexError. *)
Fixpoint pop (l : list A) : option (A * list A) :=
  match l with
  | [] => None
  | x :: t =>
      match pop t with
      | None => Some (x, [])
      | Some (y, t') => Some (y, x :: t')
      end
  end.
End ListOps.
End Py.

Arguments Py.append {A} l e : simpl never.
Arguments Py.len {A} l : simpl never.

(* ------------------------------------------------------------------ *)
(** ** command.py *)

Section Commands.
(** Python values passed as arguments, payloads of the exceptions client
    commands raise, and the external context. *)
Context {V E W : Type}.

(** What the code of a command may raise: the base class raises
    NotImplementedError (command.py 23, 31), a client subclass anything
    of its own. *)
Inductive CommandException : Type :=
| NotImplementedError
| ClientException (e : E).

(** The outcome of one call of a command's method on the context. The
    returned value is a Python value or None. *)
Inductive outcome : Type :=
| Done (v : option V) (w : W)
| Failed (x : CommandException) (w : W).

(** A method: it takes the positional arguments [args] and the named
    arguments [kwargs] (in the order given) and acts on the context. *)
Definition method : Type := list V -> list (string * V) -> W -> outcome.

(** A command object: its name and, for each of the three methods, the
    body its class defines, if it defines one. *)
Record Command : Type := {
  name : string;
  def_execute : option method;
  def_undo : option method;
  def_redo : option method
}.

(** command.py 17-23 *)
Definition Command_execute : method :=
  fun _ _ w => Failed NotImplementedError w.

(** command.py 25-31 *)
Definition Command_undo : method :=
  fun _ _ w => Failed NotImplementedError w.

(** Attribute lookup [self.execute]: the subclass's body, else the base
    class's. *)
Definition execute (self : Command) : method :=
  match def_execute self with
  | Some f => f
  | None => Command_execute
  end.

Definition undo (self : Command) : method :=
  match def_undo self with
  | Some f => f
  | None => Command_undo
  end.

(** command.py 33-39: a call of [self.execute] with the same [args] and
    [kwargs], as a statement; the value execute returns is dropped and
    redo returns None. *)
Definition Command_redo (self : Command) : method :=
  fun args kwargs w =>
    match execute self args kwargs w with
    | Done _ w' => Done None w'
    | Failed x w' => Failed x w'
    end.

Definition redo (self : Command) : method :=
  match def_redo self with
  | Some f => f
  | None => Command_redo self
  end.

(** command.py 42-69 *)
Record CommandInstance : Type := {
  _command : Command;
  args : list V;
  kwargs : list (string * V)
}.

(** The [command] property. *)
Definition command (self : CommandInstance) : Command := _command self.

(** command.py 49-60: the constructor keeps the command, the positional
    arguments and the named arguments it is given. *)
Definition CommandInstance__init__ (command : Command) (args : list V)
  (kwargs : list (string * V)) : CommandInstance :=
  {| _command := command; args := args; kwargs := kwargs |}.

(** What a caller can observe of a call besides its return value: the
    context it leaves and the exception it raises, if any. *)
Definition effect (o : outcome) : option CommandException * W :=
  match o with
  | Done _ w => (None, w)
  | Failed x w => (Some x, w)
  end.
End Commands.

Arguments CommandException : clear implicits.
Arguments outcome : clear implicits.
Arguments method : clear implicits.
Arguments Command : clear implicits.
Arguments CommandInstance : clear implicits.

(* ------------------------------------------------------------------ *)
(** ** Methods that mutate an object and may raise *)

Section Effects.
(** [S]: the mutable state a method runs on; [X]: the exceptions. *)
Context {S X : Type}.

(** A call returns a value or raises; either way it leaves a state. *)
Inductive result (A : Type) : Type :=
| Returns (a : A) (s : S)
| Raises (x : X) (s : S).

Definition M (A : Type) : Type := S -> result A.

Definition ret {A} (a : A) : M A := fun s => Returns A a s.

Definition bind {A B} (m : M A) (k : A -> M B) : M B :=
  fun s =>
    match m s with
    | Returns _ a s' => k a s'
    | Raises _ x s' => Raises B x s'
    end.

(** The [raise] statement. *)
Definition raise {A} (x : X) : M A := fun s => Raises A x s.

(** Reading an attribute of the state and updating the state. *)
Definition read {A} (f : S -> A) : M A := fun s => Returns A (f s) s.
Definition update (f : S -> S) : M unit := fun s => Returns unit tt (f s).

(** The state a call leaves, however it ends. *)
Definition state_after {A} (m : M A) (s : S) : S :=
  match m s with
  | Returns _ _ s' => s'
  | Raises _ _ s' => s'
  end.

(** The value a call returns, if it returns. *)
Definition value {A} (r : result A) : option A :=
  match r with
  | Returns _ a _ => Some a
  | Raises _ _ _ => None
  end.

(** The exception a call raises, if it raises. *)
Definition raised {A} (r : result A) : option X :=
  match r with
  | Returns _ _ _ => None
  | Raises _ x _ => Some x
  end.

(** A caller that makes the calls of [ms] one after the other and goes
    on after a call that raised (each call in its own try statement). When
    no call raises this is the plain sequence of statements. *)
Definition calls (ms : list (M unit)) (s : S) : S :=
  fold_left (fun s m => state_after m s) ms s.
End Effects.

Arguments result : clear implicits.
Arguments M : clear implicits.
Arguments Returns {S X A} a s.
Arguments Raises {S X A} x s.

Declare Scope py_scope.
Delimit Scope py_scope with py.
Notation "x <- m ;; k" := (bind m (fun x => k))
  (at level 100, m at next level, right associativity) : py_scope.
Notation "m ;; k" := (bind m (fun _ => k))
  (at level 100, right associativity) : py_scope.
Open Scope py_scope.

(* ------------------------------------------------------------------ *)
(** ** history.py *)

Section History.
Context {V E W : Type}.

(** The exceptions a method of the history can end with: the three
    classes of history.py 5-17 raised by its own statements, IndexError
    from a list operation, and whatever left a command's method. *)
Inductive Exception : Type :=
| NothingToUndoException
| NothingToRedoException
| EmptyHistoryException
| IndexError
| Propagated (x : CommandException E).

(** history.py 111-125: the two stacks, top at the end of the list. *)
Record DoubleStackHistory : Type := {
  _primary : list (CommandInstance V E W);
  _secondary : list (CommandInstance V E W)
}.

(** The history object together with the context its commands act on. *)
Record state : Type := {
  self : DoubleStackHistory;
  context : W
}.

Definition H (A : Type) : Type := M state Exception A.

(** history.py 120-125 *)
Definition __init__ : DoubleStackHistory :=
  {| _primary := []; _secondary := [] |}.

(** A new history next to a context [w]. *)
Definition fresh (w : W) : state := {| self := __init__; context := w |}.

(** The state with applied stack [p], redoable stack [q] and context
    [w]. *)
Definition config (p q : list (CommandInstance V E W)) (w : W) : state :=
  {| self := {| _primary := p; _secondary := q |}; context := w |}.

Definition primary : H (list (CommandInstance V E W)) :=
  read (fun s => _primary (self s)).

Definition secondary : H (list (CommandInstance V E W)) :=
  read (fun s => _secondary (self s)).

Definition set_primary (l : list (CommandInstance V E W)) : H unit :=
  update (fun s =>
    {| self := {| _primary := l; _secondary := _secondary (self s) |};
       context := context s |}).

Definition set_secondary (l : list (CommandInstance V E W)) : H unit :=
  update (fun s =>
    {| self := {| _primary := _primary (self s); _secondary := l |};
       context := context s |}).

(** [l[-1]] and [l.pop()] as statements of a method. *)
Definition getitem_last (l : list (CommandInstance V E W))
  : H (CommandInstance V E W) :=
  match Py.getitem_last l with
  | Some x => ret x
  | None => raise IndexError
  end.

Definition pop_primary : H (CommandInstance V E W) :=
  l <- primary ;;
  match Py.pop l with
  | Some (x, l') => set_primary l' ;; ret x
  | None => raise IndexError
  end.

Definition pop_secondary : H (CommandInstance V E W) :=
  l <- secondary ;;
  match Py.pop l with
  | Some (x, l') => set_secondary l' ;; ret x
  | None => raise IndexError
  end.

(** A call of a command's method from inside the history: it acts on the
    context only, and an exception it raises is passed on as it is. *)
Definition invoke (f : W -> outcome V E W) : H (option V) :=
  fun s =>
    match f (context s) with
    | Done v w' => Returns v {| self := self s; context := w' |}
    | Failed x w' => Raises (Propagated x) {| self := self s; context := w' |}
    end.

(** history.py 127-133 *)
Definition append (e : CommandInstance V E W) : H unit :=
  s <- secondary ;;
  set_secondary (Py.clear s) ;;
  p <- primary ;;
  set_primary (Py.append p e) ;;
  invoke (execute (command e) (args e) (kwargs e)) ;;
  ret tt.

(** history.py 135-146 *)
Definition back : H unit :=
  p <- primary ;;
  (if Py.len p =? 0 then
     s <- secondary ;;
     (if Py.len s =? 0 then raise EmptyHistoryException else ret tt) ;;
     raise NothingToUndoException
   else ret tt) ;;
  p <- primary ;;
  x <- getitem_last p ;;
  s <- secondary ;;
  set_secondary (Py.append s x) ;;
  c <- pop_primary ;;
  invoke (undo (command c) (args c) (kwargs c)) ;;
  ret tt.

(** history.py 148-159 *)
Definition forth : H unit :=
  s <- secondary ;;
  (if Py.len s =? 0 then
     p <- primary ;;
     (if Py.len p =? 0 then raise EmptyHistoryException else ret tt) ;;
     raise NothingToRedoException
   else ret tt) ;;
  s <- secondary ;;
  x <- getitem_last s ;;
  p <- primary ;;
  set_primary (Py.append p x) ;;
  c <- pop_secondary ;;
  invoke (redo (command c) (args c) (kwargs c)) ;;
  ret tt.

(** history.py 161-164; the returned [None] is Python's None. *)
Definition item : H (option (CommandInstance V E W)) :=
  p <- primary ;;
  s <- secondary ;;
  (if (Py.len p =? 0) && (Py.len s =? 0)
   then raise EmptyHistoryException else ret tt) ;;
  if Py.len p >? 0
  then x <- getitem_last p ;; ret (Some x)
  else ret None.

(** history.py 166-167 *)
Definition can_undo : H bool :=
  p <- primary ;; ret (Py.len p >? 0).

(** history.py 169-170 *)
Definition can_redo : H bool :=
  s <- secondary ;; ret (Py.len s >? 0).

(** history.py 172-174 *)
Definition clear : H unit :=
  p <- primary ;;
  set_primary (Py.clear p) ;;
  s <- secondary ;;
  set_secondary (Py.clear s).

(** history.py 176-177 *)
Definition __len__ : H Z :=
  p <- primary ;;
  s <- secondary ;;
  ret (Py.len p + Py.len s).

(** The call sequences the properties speak of. *)
Definition branch_calls (A B C : CommandInstance V E W) : list (H unit) :=
  [append A; append B; back; back; append C].

Definition appends (l : list (CommandInstance V E W)) : list (H unit) :=
  map append l.

(** append, back, forth as one block of statements, then the three
    observations. *)
Definition round_trip (A : CommandInstance V E W)
  : H (option (CommandInstance V E W) * bool * bool) :=
  append A ;;
  back ;;
  forth ;;
  x <- item ;;
  u <- can_undo ;;
  r <- can_redo ;;
  ret (x, u, r).

(** The contract a command is asked to keep (spec 4.1), for the
    instance [A] called on the context [w]: execute returns; undo, called
    on the context execute left, returns and restores [w]; redo, called
    then, has the effect of calling execute again. *)
Definition well_behaved (A : CommandInstance V E W) (w : W) : Prop :=
  exists v1 w1,
    execute (command A) (args A) (kwargs A) w = Done v1 w1 /\
    (exists v2, undo (command A) (args A) (kwargs A) w1 = Done v2 w) /\
    effect (redo (command A) (args A) (kwargs A) w)
    = effect (execute (command A) (args A) (kwargs A) w).
(** The context one call of the instance's execute, undo or redo leaves on
    the context [w], whether the call returns or raises. *)
Definition executed (w : W) (c : CommandInstance V E W) : W :=
  snd (effect (execute (command c) (args c) (kwargs c) w)).

Definition undone (w : W) (c : CommandInstance V E W) : W :=
  snd (effect (undo (command c) (args c) (kwargs c) w)).

Definition redone (w : W) (c : CommandInstance V E W) : W :=
  snd (effect (redo (command c) (args c) (kwargs c) w)).

(** [n] calls of back, of forth, in a row. *)
Definition backs (n : nat) : list (H unit) := repeat back n.

Definition forths (n : nat) : list (H unit) := repeat forth n.
End History.

Arguments Exception : clear implicits.
Arguments DoubleStackHistory : clear implicits.
Arguments state : clear implicits.
Arguments H : clear implicits.

(* ------------------------------------------------------------------ *)
(** ** Client code used in the examples *)

Module Example.
(** Values are integers, the context is one integer, client exceptions
    carry a message. *)
Definition first_arg (args : list Z) : Z :=
  match args with
  | n :: _ => n
  | [] => 0
  end.

(** A subclass of Command that adds its first argument to the context
    and returns the new total, subtracts it on undo and inherits redo. *)
Definition Add : Command Z string Z := {|
  name := "add"%string;
  def_execute :=
    Some (fun args _ w =>
            Done (Some (w + first_arg args)) (w + first_arg args));
  def_undo := Some (fun args _ w => Done None (w - first_arg args));
  def_redo := None
|}.

(** A subclass whose execute works and returns a value, and whose undo
    and redo refuse after changing the context. *)
Definition OneWay : Command Z string Z := {|
  name := "one-way"%string;
  def_execute := Some (fun args _ w => Done (Some w) (w + first_arg args));
  def_undo :=
    Some (fun _ _ w => Failed (ClientException "no undo"%string) (w + 100));
  def_redo :=
    Some (fun _ _ w => Failed (ClientException "no redo"%string) (w + 200))
|}.

(** A subclass whose execute and undo work like those of [Add] and whose
    redo refuses. *)
Definition NoRedo : Command Z string Z := {|
  name := "no-redo"%string;
  def_execute := Some (fun args _ w => Done None (w + first_arg args));
  def_undo := Some (fun args _ w => Done None (w - first_arg args));
  def_redo := Some (fun _ _ w => Failed (ClientException "no redo"%string) w)
|}.

(** The base class itself: nothing is overridden. *)
Definition Abstract : Command Z string Z := {|
  name := "abstract"%string;
  def_execute := None;
  def_undo := None;
  def_redo := None
|}.

Definition instance (c : Command Z string Z) (n : Z)
  : CommandInstance Z string Z :=
  {| _command := c; args := [n]; kwargs := [] |}.

Definition A := instance Add 1.
Definition B := instance Add 2.
Definition C := instance Add 3.
End Example.

(* ------------------------------------------------------------------ *)
(** ** Facts about the list operations *)

Section ListFacts.
Context {A : Type}.
Implicit Types (l : list A) (x : A).

Lemma len_nonneg l : 0 <= Py.len l.
Proof. unfold Py.len. lia. Qed.

Lemma len_nil : Py.len (@nil A) = 0.
Proof. reflexivity. Qed.

Lemma len_append l x : Py.len (Py.append l x) = Py.len l + 1.
Proof. unfold Py.len, Py.append. rewrite length_app. cbn. lia. Qed.

Lemma len_zero l : Py.len l = 0 <-> l = [].
Proof.
  unfold Py.len. split.
  - destruct l; [reflexivity | cbn; lia].
  - intros ->. reflexivity.
Qed.

Lemma len_eqb_append l x : (Py.len (Py.append l x) =? 0) = false.
Proof. rewrite len_append. pose proof (len_nonneg l). lia. Qed.

Lemma len_gtb_append l x : (Py.len (Py.append l x) >? 0) = true.
Proof. rewrite len_append. pose proof (len_nonneg l). lia. Qed.

Lemma getitem_last_append l x : Py.getitem_last (Py.append l x) = Some x.
Proof.
  unfold Py.append. induction l as [|y t IH]; [reflexivity|].
  cbn [app Py.getitem_last]. rewrite IH.
  destruct t; reflexivity.
Qed.

Lemma pop_append l x : Py.pop (Py.append l x) = Some (x, l).
Proof.
  unfold Py.append. induction l as [|y t IH]; [reflexivity|].
  cbn [app Py.pop]. rewrite IH. reflexivity.
Qed.

Lemma len_eqb_nil : (Py.len (@nil A) =? 0) = true.
Proof. reflexivity. Qed.

Lemma len_gtb_nil : (Py.len (@nil A) >? 0) = false.
Proof. reflexivity. Qed.

(** A list is empty or was built by a last append. *)
Lemma list_top l : l = [] \/ exists t x, l = Py.append t x.
Proof.
  induction l as [|x t _] using rev_ind.
  - left. reflexivity.
  - right. exists t, x. reflexivity.
Qed.
End ListFacts.

(** Runs a method on a state whose stacks are [[]] or end in an append. *)
Ltac run_method :=
  unfold bind; cbn;
  repeat (rewrite ?len_eqb_nil, ?len_gtb_nil, ?len_eqb_append,
            ?len_gtb_append, ?getitem_last_append, ?pop_append; cbn).

(* ------------------------------------------------------------------ *)
(** ** What each method does, by the shape of the two stacks *)

Section Runs.
Context {V E W : Type}.
Implicit Types (p q : list (CommandInstance V E W)) (w : W)
  (e c : CommandInstance V E W) (s : state V E W).

Lemma state_config s :
  s = config (_primary (self s)) (_secondary (self s)) (context s).
Proof. destruct s as [[p q] w]. reflexivity. Qed.

(** append: the redoable stack is emptied and [e] pushed before execute
    is called; what execute does decides only the context and whether
    the call returns. *)
Lemma append_run e p q w :
  append e (config p q w) =
  match execute (command e) (args e) (kwargs e) w with
  | Done _ w' => Returns tt (config (Py.append p e) [] w')
  | Failed x w' => Raises (Propagated x) (config (Py.append p e) [] w')
  end.
Proof.
  unfold append, bind, invoke. cbn.
  destruct (execute (command e) (args e) (kwargs e) w); reflexivity.
Qed.

Lemma back_empty w :
  back (config [] [] w : state V E W)
  = Raises EmptyHistoryException (config [] [] w).
Proof. unfold back. run_method. reflexivity. Qed.

Lemma back_nothing q c w :
  back (config [] (Py.append q c) w)
  = Raises NothingToUndoException (config [] (Py.append q c) w).
Proof.
  unfold back. run_method. reflexivity.
Qed.

(** back on a non-empty applied stack: the top instance is moved to the
    redoable stack before its undo is called. *)
Lemma back_run p c q w :
  back (config (Py.append p c) q w) =
  match undo (command c) (args c) (kwargs c) w with
  | Done _ w' => Returns tt (config p (Py.append q c) w')
  | Failed x w' => Raises (Propagated x) (config p (Py.append q c) w')
  end.
Proof.
  unfold back, getitem_last, pop_primary, invoke. run_method.
  destruct (undo (command c) (args c) (kwargs c) w); reflexivity.
Qed.

Lemma forth_empty w :
  forth (config [] [] w : state V E W)
  = Raises EmptyHistoryException (config [] [] w).
Proof. unfold forth. run_method. reflexivity. Qed.

Lemma forth_nothing p c w :
  forth (config (Py.append p c) [] w)
  = Raises NothingToRedoException (config (Py.append p c) [] w).
Proof.
  unfold forth. run_method. reflexivity.
Qed.

(** forth on a non-empty redoable stack, symmetric to back. *)
Lemma forth_run p q c w :
  forth (config p (Py.append q c) w) =
  match redo (command c) (args c) (kwargs c) w with
  | Done _ w' => Returns tt (config (Py.append p c) q w')
  | Failed x w' => Raises (Propagated x) (config (Py.append p c) q w')
  end.
Proof.
  unfold forth, getitem_last, pop_secondary, invoke. run_method.
  destruct (redo (command c) (args c) (kwargs c) w); reflexivity.
Qed.

Lemma item_empty w :
  item (config [] [] w : state V E W)
  = Raises EmptyHistoryException (config [] [] w).
Proof. unfold item. run_method. reflexivity. Qed.

Lemma item_top p c q w :
  item (config (Py.append p c) q w)
  = Returns (Some c) (config (Py.append p c) q w).
Proof.
  unfold item, getitem_last. run_method. reflexivity.
Qed.

Lemma item_none q c w :
  item (config [] (Py.append q c) w)
  = Returns None (config [] (Py.append q c) w).
Proof.
  unfold item. run_method. reflexivity.
Qed.

Lemma can_undo_run p q w :
  can_undo (config p q w) = Returns (Py.len p >? 0) (config p q w).
Proof. reflexivity. Qed.

Lemma can_redo_run p q w :
  can_redo (config p q w) = Returns (Py.len q >? 0) (config p q w).
Proof. reflexivity. Qed.

Lemma len_run p q w :
  __len__ (config p q w) = Returns (Py.len p + Py.len q) (config p q w).
Proof. reflexivity. Qed.

Lemma clear_run p q w :
  clear (config p q w) = Returns tt (config [] [] w).
Proof. reflexivity. Qed.

(** The stacks a call leaves do not depend on what the command did. *)
Lemma after_append e p q w :
  exists w', state_after (append e) (config p q w)
             = config (Py.append p e) [] w'.
Proof.
  unfold state_after. rewrite append_run.
  destruct (execute _ _ _ w); eauto.
Qed.

Lemma after_back p c q w :
  exists w', state_after back (config (Py.append p c) q w)
             = config p (Py.append q c) w'.
Proof.
  unfold state_after. rewrite back_run.
  destruct (undo _ _ _ w); eauto.
Qed.

Lemma after_forth p q c w :
  exists w', state_after forth (config p (Py.append q c) w)
             = config (Py.append p c) q w'.
Proof.
  unfold state_after. rewrite forth_run.
  destruct (redo _ _ _ w); eauto.
Qed.

(** A block of two statements that returns: the second ran on the state
    the first left. *)
Lemma seq_returns {T U} (m : H V E W T) (k : H V E W U) s u s' :
  (m ;; k) s = Returns u s' -> k (state_after m s) = Returns u s'.
Proof.
  unfold bind, state_after. destruct (m s); [auto | discriminate].
Qed.

Lemma calls_cons (m : H V E W unit) ms s :
  calls (m :: ms) s = calls ms (state_after m s).
Proof. reflexivity. Qed.

Lemma calls_app (ms ns : list (H V E W unit)) s :
  calls (ms ++ ns) s = calls ns (calls ms s).
Proof. unfold calls. apply fold_left_app. Qed.
End Runs.

(* ------------------------------------------------------------------ *)
(** ** Properties of the history *)

Section Properties.
Context {V E W : Type}.
Implicit Types (p q : list (CommandInstance V E W)) (w : W)
  (A B C e c : CommandInstance V E W) (s : state V E W).

Lemma append_not_nil {T} (l : list T) (x : T) : Py.append l x <> [].
Proof. unfold Py.append. destruct l; discriminate. Qed.

Lemma calls_appends l p w :
  exists w', calls (appends l) (config p [] w) = config (p ++ l) [] w'.
Proof.
  revert p w. induction l as [|e l IH]; intros p w.
  - exists w. rewrite app_nil_r. reflexivity.
  - change (appends (e :: l)) with (append e :: appends l).
    rewrite calls_cons.
    destruct (after_append e p [] w) as [w1 ->].
    destruct (IH (Py.append p e) w1) as [w2 ->].
    exists w2. unfold Py.append. rewrite <- app_assoc. reflexivity.
Qed.

(** C1 (as amended): after append(A), append(B), back(), back(),
    append(C) on a new history, whatever the three commands do, the
    applied stack holds C alone and the redoable stack is empty:
    can_redo() is False and the length is 1. The two back() calls move
    both B and A to the redoable stack, which append(C) then clears. *)
Theorem branch_discard A B C w :
  self (calls (branch_calls A B C) (fresh w))
  = {| _primary := [C]; _secondary := [] |} /\
  value (can_redo (calls (branch_calls A B C) (fresh w))) = Some false /\
  value (__len__ (calls (branch_calls A B C) (fresh w))) = Some 1.
Proof.
  unfold branch_calls. rewrite !calls_cons.
  change (fresh w) with (config (V:=V) (E:=E) [] [] w).
  destruct (after_append A [] [] w) as [w1 ->].
  destruct (after_append B (Py.append [] A) [] w1) as [w2 ->].
  destruct (after_back (Py.append [] A) B [] w2) as [w3 ->].
  destruct (after_back [] A (Py.append [] B) w3) as [w4 ->].
  destruct (after_append C [] (Py.append (Py.append [] B) A) w4) as [w5 ->].
  cbn [calls fold_left]. repeat split.
Qed.

(** C2: for an instance A that keeps the contract of [well_behaved],
    append(A), back(), forth() on a new history return, and then item()
    is A, can_undo() is True, can_redo() is False and the context is the
    one append(A) alone leaves. *)
Theorem undo_redo_round_trip A w :
  well_behaved A w ->
  exists w1,
    append A (fresh w) = Returns tt (config [A] [] w1) /\
    round_trip A (fresh w)
    = Returns (Some A, true, false) (config [A] [] w1).
Proof.
  intros (v1 & w1 & Hexec & [v2 Hundo] & Hredo).
  exists w1.
  change (fresh w) with (config (V:=V) (E:=E) [] [] w).
  assert (Happ : append A (config [] [] w) = Returns tt (config [A] [] w1)).
  { rewrite append_run, Hexec. reflexivity. }
  split; [exact Happ|].
  rewrite Hexec in Hredo.
  unfold round_trip, bind. rewrite Happ.
  change [A] with (Py.append [] A).
  rewrite back_run, Hundo.
  rewrite forth_run.
  destruct (redo (command A) (args A) (kwargs A) w) as [v3 w3|x w3];
    cbn in Hredo; [|discriminate].
  injection Hredo as ->.
  rewrite item_top. reflexivity.
Qed.

(** C3: after the appends A1..An (n >= 1, written [As ++ [An]]) on a new
    history, can_undo() is True, can_redo() is False, the length is n and
    item() is An. *)
Theorem appends_observed (As : list (CommandInstance V E W)) An w :
  value (can_undo (calls (appends (As ++ [An])) (fresh w))) = Some true /\
  value (can_redo (calls (appends (As ++ [An])) (fresh w))) = Some false /\
  value (__len__ (calls (appends (As ++ [An])) (fresh w)))
  = Some (Py.len (As ++ [An])) /\
  value (item (calls (appends (As ++ [An])) (fresh w))) = Some (Some An).
Proof.
  change (fresh w) with (config (V:=V) (E:=E) [] [] w).
  destruct (calls_appends (As ++ [An]) [] w) as [w' ->].
  cbn [app]. change (As ++ [An]) with (Py.append As An).
  rewrite item_top, can_undo_run, can_redo_run, len_run. cbn [value].
  rewrite len_gtb_append, len_gtb_nil, len_nil, Z.add_0_r.
  repeat split.
Qed.

(** Which exception back, forth and item end with, by the stacks. *)
Lemma raised_back_cases s :
  (_primary (self s) = [] /\ _secondary (self s) = [] /\
   raised (back s) = Some EmptyHistoryException) \/
  (_primary (self s) = [] /\ _secondary (self s) <> [] /\
   raised (back s) = Some NothingToUndoException) \/
  (_primary (self s) <> [] /\
   (raised (back s) = None \/
    exists x, raised (back s) = Some (Propagated x))).
Proof.
  destruct s as [[p q] w]. cbn [self _primary _secondary].
  change {| self := {| _primary := p; _secondary := q |}; context := w |}
    with (config p q w).
  destruct (list_top p) as [-> | (p' & c & ->)].
  - destruct (list_top q) as [-> | (q' & c & ->)].
    + left. rewrite back_empty. auto.
    + right; left. rewrite back_nothing.
      repeat split. apply append_not_nil.
  - right; right. split; [apply append_not_nil|].
    rewrite back_run.
    destruct (undo (command c) (args c) (kwargs c) w); cbn; eauto.
Qed.

Lemma raised_forth_cases s :
  (_primary (self s) = [] /\ _secondary (self s) = [] /\
   raised (forth s) = Some EmptyHistoryException) \/
  (_secondary (self s) = [] /\ _primary (self s) <> [] /\
   raised (forth s) = Some NothingToRedoException) \/
  (_secondary (self s) <> [] /\
   (raised (forth s) = None \/
    exists x, raised (forth s) = Some (Propagated x))).
Proof.
  destruct s as [[p q] w]. cbn [self _primary _secondary].
  change {| self := {| _primary := p; _secondary := q |}; context := w |}
    with (config p q w).
  destruct (list_top q) as [-> | (q' & c & ->)].
  - destruct (list_top p) as [-> | (p' & c & ->)].
    + left. rewrite forth_empty. auto.
    + right; left. rewrite forth_nothing.
      repeat split. apply append_not_nil.
  - right; right. split; [apply append_not_nil|].
    rewrite forth_run.
    destruct (redo (command c) (args c) (kwargs c) w); cbn; eauto.
Qed.

Lemma raised_item_cases s :
  (_primary (self s) = [] /\ _secondary (self s) = [] /\
   raised (item s) = Some EmptyHistoryException) \/
  ((_primary (self s) <> [] \/ _secondary (self s) <> []) /\
   raised (item s) = None).
Proof.
  destruct s as [[p q] w]. cbn [self _primary _secondary].
  change {| self := {| _primary := p; _secondary := q |}; context := w |}
    with (config p q w).
  destruct (list_top p) as [-> | (p' & c & ->)].
  - destruct (list_top q) as [-> | (q' & c & ->)].
    + left. rewrite item_empty. auto.
    + right. rewrite item_none. split; [right; apply append_not_nil|].
      reflexivity.
  - right. rewrite item_top. split; [left; apply append_not_nil|].
    reflexivity.
Qed.

(** The guards of back and forth keep the list operations in range. *)
Lemma no_index_error s :
  raised (back s) <> Some IndexError /\
  raised (forth s) <> Some IndexError /\
  raised (item s) <> Some IndexError.
Proof.
  split; [|split].
  - destruct (raised_back_cases s)
      as [(_ & _ & Hr) | [(_ & _ & Hr) | (_ & [Hr | [? Hr]])]];
      rewrite Hr; discriminate.
  - destruct (raised_forth_cases s)
      as [(_ & _ & Hr) | [(_ & _ & Hr) | (_ & [Hr | [? Hr]])]];
      rewrite Hr; discriminate.
  - destruct (raised_item_cases s) as [(_ & _ & Hr) | (_ & Hr)];
      rewrite Hr; discriminate.
Qed.

(** Closes an equivalence between an exception and a stack shape from
    one of the case lemmas above. *)
Ltac by_cases H :=
  destruct H as [(? & ? & Hr) | [(? & ? & Hr) | (? & [Hr | [? Hr]])]];
  rewrite Hr;
  (split;
   [ intros Heq; try discriminate Heq; auto
   | intros [? ?]; try reflexivity; congruence ]).

(** C4: on a new history back(), forth() and item() raise
    EmptyHistoryException and change nothing; and on any history each of
    the three raises EmptyHistoryException exactly when both stacks are
    empty. *)
Theorem empty_history_errors w s :
  back (fresh w : state V E W) = Raises EmptyHistoryException (fresh w) /\
  forth (fresh w : state V E W) = Raises EmptyHistoryException (fresh w) /\
  item (fresh w : state V E W) = Raises EmptyHistoryException (fresh w) /\
  (raised (back s) = Some EmptyHistoryException <->
   _primary (self s) = [] /\ _secondary (self s) = []) /\
  (raised (forth s) = Some EmptyHistoryException <->
   _primary (self s) = [] /\ _secondary (self s) = []) /\
  (raised (item s) = Some EmptyHistoryException <->
   _primary (self s) = [] /\ _secondary (self s) = []).
Proof.
  split; [apply back_empty|].
  split; [apply forth_empty|].
  split; [apply item_empty|].
  split; [|split].
  - pose proof (raised_back_cases s) as Hc. by_cases Hc.
  - pose proof (raised_forth_cases s) as Hc. by_cases Hc.
  - destruct (raised_item_cases s) as [(? & ? & Hr) | ([?|?] & Hr)];
      rewrite Hr; split; try discriminate; auto;
      intros [? ?]; congruence.
Qed.

(** The state append(A) then back() leave on a new history. *)
Lemma after_append_back A w :
  exists w', calls [append A; back] (fresh w) = config [] [A] w'.
Proof.
  rewrite !calls_cons.
  change (fresh w) with (config (V:=V) (E:=E) [] [] w).
  destruct (after_append A [] [] w) as [w1 ->].
  destruct (after_back [] A [] w1) as [w2 ->].
  exists w2. reflexivity.
Qed.

(** C5: after append(A), back() on a new history a further back() raises
    NothingToUndoException, item() returns None and can_redo() is True;
    and on any history back() raises NothingToUndoException exactly when
    the applied stack is empty and the redoable stack is not. *)
Theorem undo_exhausted A w s :
  raised (back (calls [append A; back] (fresh w)))
  = Some NothingToUndoException /\
  value (item (calls [append A; back] (fresh w))) = Some None /\
  value (can_redo (calls [append A; back] (fresh w))) = Some true /\
  (raised (back s) = Some NothingToUndoException <->
   _primary (self s) = [] /\ _secondary (self s) <> []).
Proof.
  destruct (after_append_back A w) as [w' ->].
  change [A] with (Py.append [] A).
  rewrite back_nothing, item_none, can_redo_run. cbn [raised value].
  rewrite len_gtb_append.
  repeat (split; [reflexivity|]).
  pose proof (raised_back_cases s) as Hc. by_cases Hc.
Qed.

(** C6 (as amended): from the state append(A), back() leave, forth()
    passes its checks and puts A back on the applied stack; it returns
    when A's redo returns, and when A's redo raises it ends with that
    exception, A being on the applied stack all the same. Either way a
    further forth() raises NothingToRedoException; and on any history
    forth() raises NothingToRedoException exactly when the redoable stack
    is empty and the applied stack is not. *)
Theorem redo_exhausted A w s :
  (forall v w',
     redo (command A) (args A) (kwargs A)
       (context (calls [append A; back] (fresh w))) = Done v w' ->
     forth (calls [append A; back] (fresh w))
     = Returns tt (config [A] [] w')) /\
  (forall x w',
     redo (command A) (args A) (kwargs A)
       (context (calls [append A; back] (fresh w))) = Failed x w' ->
     forth (calls [append A; back] (fresh w))
     = Raises (Propagated x) (config [A] [] w')) /\
  raised (forth (calls [append A; back; forth] (fresh w)))
  = Some NothingToRedoException /\
  (raised (forth s) = Some NothingToRedoException <->
   _secondary (self s) = [] /\ _primary (self s) <> []).
Proof.
  change [append A; back; forth] with ([append A; back] ++ [forth]).
  rewrite (calls_app (V:=V) (E:=E) (W:=W)).
  destruct (after_append_back A w) as [w1 ->].
  change (calls [forth] (config [] [A] w1))
    with (state_after forth (config [] [A] w1)).
  unfold state_after.
  change [A] with (Py.append [] A).
  rewrite forth_run. cbn [context config].
  split; [|split; [|split]].
  - intros v w' Hredo. rewrite Hredo. reflexivity.
  - intros x w' Hredo. rewrite Hredo. reflexivity.
  - destruct (redo (command A) (args A) (kwargs A) w1);
      rewrite forth_nothing; reflexivity.
  - pose proof (raised_forth_cases s) as Hc. by_cases Hc.
Qed.

(** C7: when the command's method raises, append, back and forth end
    with that same exception, the context is the one the single failing
    call left, and the stacks are as the move made them before the call:
    for append the redoable stack is empty and the instance is on top of
    the applied stack; for back and forth the instance has changed
    stack. *)
Theorem command_failure_propagates e c p q w x w' :
  (execute (command e) (args e) (kwargs e) w = Failed x w' ->
   append e (config p q w)
   = Raises (Propagated x) (config (Py.append p e) [] w')) /\
  (undo (command c) (args c) (kwargs c) w = Failed x w' ->
   back (config (Py.append p c) q w)
   = Raises (Propagated x) (config p (Py.append q c) w')) /\
  (redo (command c) (args c) (kwargs c) w = Failed x w' ->
   forth (config p (Py.append q c) w)
   = Raises (Propagated x) (config (Py.append p c) q w')).
Proof.
  split; [|split]; intros Hfail.
  - rewrite append_run, Hfail. reflexivity.
  - rewrite back_run, Hfail. reflexivity.
  - rewrite forth_run, Hfail. reflexivity.
Qed.

(** C8: on any history clear() returns, leaves both stacks empty and the
    context untouched (no undo is called); afterwards the length is 0 and
    can_undo() and can_redo() are False. *)
Theorem clear_resets s :
  clear s = Returns tt (config [] [] (context s)) /\
  value (__len__ (state_after clear s)) = Some 0 /\
  value (can_undo (state_after clear s)) = Some false /\
  value (can_redo (state_after clear s)) = Some false.
Proof.
  rewrite (state_config s) at 1 2 3 4.
  unfold state_after. rewrite clear_run. repeat split.
Qed.

(** C9: a command whose class does not define redo: calling redo has the
    effect of calling execute with the same arguments, the same context
    left and the same exception raised, if any. *)
Theorem default_redo_is_execute (cmd : Command V E W) a k w :
  def_redo cmd = None ->
  effect (redo cmd a k w) = effect (execute cmd a k w).
Proof.
  intros Hdef. unfold redo. rewrite Hdef. unfold Command_redo.
  destruct (execute cmd a k w); reflexivity.
Qed.

(** C10: when undo raises during back() on a non-empty applied stack,
    the instance has left the applied stack and lies on top of the
    redoable stack: the two stacks together hold the same instances as
    before, the length is unchanged and can_redo() is True. *)
Theorem failed_undo_resting_place p c q w x w' :
  undo (command c) (args c) (kwargs c) w = Failed x w' ->
  self (state_after back (config (Py.append p c) q w))
  = {| _primary := p; _secondary := Py.append q c |} /\
  Permutation
    (_primary (self (state_after back (config (Py.append p c) q w))) ++
     _secondary (self (state_after back (config (Py.append p c) q w))))
    (Py.append p c ++ q) /\
  value (__len__ (state_after back (config (Py.append p c) q w)))
  = value (__len__ (config (Py.append p c) q w)) /\
  value (can_redo (state_after back (config (Py.append p c) q w)))
  = Some true.
Proof.
  intros Hfail. unfold state_after. rewrite back_run, Hfail.
  cbn [self config _primary _secondary].
  rewrite !len_run, can_redo_run. cbn [value].
  rewrite len_gtb_append, !len_append.
  repeat split.
  - unfold Py.append. rewrite <- app_assoc.
    apply Permutation_app_head, Permutation_app_comm.
  - f_equal. lia.
Qed.
End Properties.

(* ------------------------------------------------------------------ *)
(** ** The cursor: how the methods compose *)

Section Cursor.
Context {V E W : Type}.
Implicit Types (p q l : list (CommandInstance V E W)) (w : W)
  (e c : CommandInstance V E W) (s : state V E W).

(** The state each of the three moving methods leaves, context
    included. *)
Lemma state_after_append e p q w :
  state_after (append e) (config p q w)
  = config (Py.append p e) [] (executed w e).
Proof.
  unfold state_after, executed. rewrite append_run.
  destruct (execute _ _ _ w); reflexivity.
Qed.

Lemma state_after_back p c q w :
  state_after back (config (Py.append p c) q w)
  = config p (Py.append q c) (undone w c).
Proof.
  unfold state_after, undone. rewrite back_run.
  destruct (undo _ _ _ w); reflexivity.
Qed.

Lemma state_after_forth p q c w :
  state_after forth (config p (Py.append q c) w)
  = config (Py.append p c) q (redone w c).
Proof.
  unfold state_after, redone. rewrite forth_run.
  destruct (redo _ _ _ w); reflexivity.
Qed.

Lemma back_stays q w :
  state_after back (config [] q w) = config [] q w.
Proof.
  unfold state_after.
  destruct (list_top q) as [-> | (q' & c & ->)].
  - rewrite back_empty. reflexivity.
  - rewrite back_nothing. reflexivity.
Qed.

Lemma forth_stays p w :
  state_after forth (config p [] w) = config p [] w.
Proof.
  unfold state_after.
  destruct (list_top p) as [-> | (p' & c & ->)].
  - rewrite forth_empty. reflexivity.
  - rewrite forth_nothing. reflexivity.
Qed.

Lemma item_stays s : state_after item s = s.
Proof.
  rewrite (state_config s). unfold state_after.
  destruct (list_top (_primary (self s))) as [-> | (p' & c & ->)].
  - destruct (list_top (_secondary (self s))) as [-> | (q' & c & ->)].
    + rewrite item_empty. reflexivity.
    + rewrite item_none. reflexivity.
  - rewrite item_top. reflexivity.
Qed.

(** Names the two stacks and the context of a state. *)
Ltac open_state s p q w :=
  destruct s as [[p q] w];
  change {| self := {| _primary := p; _secondary := q |}; context := w |}
    with (config p q w) in *;
  cbn [self config _primary _secondary context] in *.

(** X1: back() and forth() only move the cursor. The applied stack
    followed by the redoable stack read from its top is the same list
    before and after the call, whether the call returns, raises one of the
    history's exceptions or passes on the command's. *)
Theorem timeline_kept s :
  _primary (self (state_after back s))
    ++ rev (_secondary (self (state_after back s)))
  = _primary (self s) ++ rev (_secondary (self s)) /\
  _primary (self (state_after forth s))
    ++ rev (_secondary (self (state_after forth s)))
  = _primary (self s) ++ rev (_secondary (self s)).
Proof.
  rewrite (state_config s).
  split.
  - destruct (list_top (_primary (self s))) as [-> | (p' & c & ->)].
    + rewrite back_stays. reflexivity.
    + rewrite state_after_back. cbn [self config _primary _secondary].
      unfold Py.append. rewrite rev_unit, <- app_assoc. reflexivity.
  - destruct (list_top (_secondary (self s))) as [-> | (q' & c & ->)].
    + rewrite forth_stays. reflexivity.
    + rewrite state_after_forth. cbn [self config _primary _secondary].
      unfold Py.append. rewrite rev_unit, <- app_assoc. reflexivity.
Qed.

(** X2: back() and forth() never change the length of the history. *)
Theorem length_kept s :
  value (__len__ (state_after back s)) = value (__len__ s) /\
  value (__len__ (state_after forth s)) = value (__len__ s).
Proof.
  rewrite (state_config s).
  split.
  - destruct (list_top (_primary (self s))) as [-> | (p' & c & ->)].
    + rewrite back_stays. reflexivity.
    + rewrite state_after_back, !len_run. cbn [value].
      rewrite !len_append. f_equal. lia.
  - destruct (list_top (_secondary (self s))) as [-> | (q' & c & ->)].
    + rewrite forth_stays. reflexivity.
    + rewrite state_after_forth, !len_run. cbn [value].
      rewrite !len_append. f_equal. lia.
Qed.
(** X3: a call the history refuses changes nothing. When back() or
    forth() raises one of the history's own exceptions, the two stacks and
    the context are as before the call (no command was called); item()
    never changes anything. *)
Theorem refusal_changes_nothing s :
  (raised (back s) = Some EmptyHistoryException \/
   raised (back s) = Some NothingToUndoException ->
   state_after back s = s) /\
  (raised (forth s) = Some EmptyHistoryException \/
   raised (forth s) = Some NothingToRedoException ->
   state_after forth s = s) /\
  state_after item s = s.
Proof.
  split; [|split; [|apply item_stays]].
  - intros Hr.
    destruct (raised_back_cases s)
      as [(Hp & _ & _) | [(Hp & _ & _) | (_ & [Hn | [x Hx]])]].
    + rewrite (state_config s), Hp. apply back_stays.
    + rewrite (state_config s), Hp. apply back_stays.
    + rewrite Hn in Hr. destruct Hr; discriminate.
    + rewrite Hx in Hr. destruct Hr; discriminate.
  - intros Hr.
    destruct (raised_forth_cases s)
      as [(_ & Hq & _) | [(Hq & _ & _) | (_ & [Hn | [x Hx]])]].
    + rewrite (state_config s), Hq. apply forth_stays.
    + rewrite (state_config s), Hq. apply forth_stays.
    + rewrite Hn in Hr. destruct Hr; discriminate.
    + rewrite Hx in Hr. destruct Hr; discriminate.
Qed.

(** X4: the predicates announce the guards. can_undo() is True exactly
    when back() raises none of the history's exceptions: it returns, or
    passes on what the command's undo raised; likewise can_redo() and
    forth(). *)
Theorem predicates_match_guards s :
  (value (can_undo s) = Some true <->
   raised (back s) = None \/
   exists x, raised (back s) = Some (Propagated x)) /\
  (value (can_redo s) = Some true <->
   raised (forth s) = None \/
   exists x, raised (forth s) = Some (Propagated x)).
Proof.
  open_state s p q w. rewrite can_undo_run, can_redo_run. cbn [value].
  split.
  - destruct (list_top p) as [-> | (p' & c & ->)].
    + rewrite len_gtb_nil.
      destruct (list_top q) as [-> | (q' & c & ->)];
        [rewrite back_empty | rewrite back_nothing]; cbn [raised];
        (split; [discriminate | intros [? | [? ?]]; discriminate]).
    + rewrite len_gtb_append, back_run.
      destruct (undo _ _ _ w); cbn [raised]; split; eauto.
  - destruct (list_top q) as [-> | (q' & c & ->)].
    + rewrite len_gtb_nil.
      destruct (list_top p) as [-> | (p' & c & ->)];
        [rewrite forth_empty | rewrite forth_nothing]; cbn [raised];
        (split; [discriminate | intros [? | [? ?]]; discriminate]).
    + rewrite len_gtb_append, forth_run.
      destruct (redo _ _ _ w); cbn [raised]; split; eauto.
Qed.
Lemma len_append_pos {T} (l : list T) (x : T) : 0 < Py.len (Py.append l x).
Proof. rewrite len_append. pose proof (len_nonneg l). lia. Qed.

(** Records that the lists of the goal that end in an append are not
    empty. *)
Ltac len_facts :=
  repeat match goal with
    | |- context [Py.len (Py.append ?l ?x)] =>
        lazymatch goal with
        | _ : 0 < Py.len (Py.append l x) |- _ => fail
        | _ => pose proof (len_append_pos l x)
        end
    end.

(** Closes one direction of an equivalence between observations. *)
Ltac settle :=
  intros;
  repeat match goal with
    | H : _ /\ _ |- _ => destruct H
    | H : exists _, _ |- _ => destruct H
    end;
  try discriminate; try congruence;
  try (exfalso; match goal with
                | H : Some _ = Some _ |- _ => injection H; lia
                end);
  try (repeat split; eauto; f_equal; lia).

(** X5: the empty history, seen four ways. The length is 0 exactly when
    item() raises EmptyHistoryException, and exactly when can_undo() and
    can_redo() are both False. *)
Theorem empty_seen_alike s :
  (value (__len__ s) = Some 0 <->
   raised (item s) = Some EmptyHistoryException) /\
  (value (__len__ s) = Some 0 <->
   value (can_undo s) = Some false /\ value (can_redo s) = Some false).
Proof.
  open_state s p q w. rewrite len_run, can_undo_run, can_redo_run.
  cbn [value].
  destruct (list_top p) as [-> | (p' & c & ->)];
    destruct (list_top q) as [-> | (q' & c' & ->)];
    rewrite ?item_empty, ?item_none, ?item_top;
    rewrite ?len_gtb_nil, ?len_gtb_append, ?len_nil; cbn [raised];
    len_facts; (split; split; settle).
Qed.

(** X6: what item() returns, by the two predicates. It returns an
    instance exactly when can_undo() is True, and that instance is the top
    of the applied stack; it returns None exactly when can_undo() is False
    and can_redo() is True. *)
Theorem item_by_predicates s :
  ((exists c, value (item s) = Some (Some c)) <->
   value (can_undo s) = Some true) /\
  (value (item s) = Some None <->
   value (can_undo s) = Some false /\ value (can_redo s) = Some true) /\
  (value (can_undo s) = Some true ->
   value (item s) = Some (Py.getitem_last (_primary (self s)))).
Proof.
  open_state s p q w. rewrite can_undo_run, can_redo_run. cbn [value].
  destruct (list_top p) as [-> | (p' & c & ->)];
    destruct (list_top q) as [-> | (q' & c' & ->)];
    rewrite ?item_empty, ?item_none, ?item_top, ?len_gtb_nil,
      ?len_gtb_append, ?getitem_last_append; cbn [value];
    (split; [split | split; [split|]]; settle).
Qed.

(** X7: append(e) on any history, whatever e's execute does: e is pushed
    on the applied stack as it was, the redoable stack is dropped, and then
    item() is e, can_undo() is True, can_redo() is False and the length is
    the number of applied instances before the call plus one. *)
Theorem append_on_any_history e s :
  self (state_after (append e) s)
  = {| _primary := Py.append (_primary (self s)) e; _secondary := [] |} /\
  value (item (state_after (append e) s)) = Some (Some e) /\
  value (can_undo (state_after (append e) s)) = Some true /\
  value (can_redo (state_after (append e) s)) = Some false /\
  value (__len__ (state_after (append e) s))
  = Some (Py.len (_primary (self s)) + 1).
Proof.
  open_state s p q w. rewrite state_after_append.
  rewrite item_top, can_undo_run, can_redo_run, len_run. cbn [value].
  rewrite len_gtb_append, len_gtb_nil, len_append, len_nil, Z.add_0_r.
  repeat split.
Qed.

(** X8: a new append closes the way forward. After append(e) on any
    history forth() raises NothingToRedoException (never
    EmptyHistoryException), calls no redo and changes nothing. *)
Theorem no_redo_after_append e s :
  raised (forth (state_after (append e) s)) = Some NothingToRedoException /\
  state_after forth (state_after (append e) s) = state_after (append e) s.
Proof.
  open_state s p q w. rewrite state_after_append.
  split; [rewrite forth_nothing; reflexivity | apply forth_stays].
Qed.

(** X9: after clear() on any history, back(), forth() and item() raise
    EmptyHistoryException, and a second clear() changes nothing. *)
Theorem after_clear s :
  raised (back (state_after clear s)) = Some EmptyHistoryException /\
  raised (forth (state_after clear s)) = Some EmptyHistoryException /\
  raised (item (state_after clear s)) = Some EmptyHistoryException /\
  state_after clear (state_after clear s) = state_after clear s.
Proof.
  open_state s p q w. unfold state_after at 1 2 3 5 6. rewrite clear_run.
  rewrite back_empty, forth_empty, item_empty.
  unfold state_after. rewrite clear_run. repeat split.
Qed.
Lemma backs_S n :
  backs (S n) = (back :: backs n : list (H V E W unit)).
Proof. reflexivity. Qed.

Lemma forths_S n :
  forths (S n) = (forth :: forths n : list (H V E W unit)).
Proof. reflexivity. Qed.

(** Runs of appends, of backs and of forths, context included. *)
Lemma appends_run l p w :
  calls (appends l) (config p [] w)
  = config (p ++ l) [] (fold_left executed l w).
Proof.
  revert p w. induction l as [|e l IH]; intros p w.
  - rewrite app_nil_r. reflexivity.
  - change (appends (e :: l)) with (append e :: appends l).
    rewrite calls_cons, state_after_append, IH.
    unfold Py.append. rewrite <- app_assoc. reflexivity.
Qed.

Lemma backs_run l p q w :
  calls (backs (length l)) (config (p ++ l) q w)
  = config p (q ++ rev l) (fold_left undone (rev l) w).
Proof.
  revert q w. induction l as [|c l IH] using rev_ind; intros q w.
  - rewrite !app_nil_r. reflexivity.
  - rewrite length_app, Nat.add_1_r, rev_unit, app_assoc.
    rewrite backs_S.
    change ((p ++ l) ++ [c]) with (Py.append (p ++ l) c).
    rewrite calls_cons, state_after_back, IH.
    unfold Py.append. rewrite <- app_assoc. reflexivity.
Qed.

Lemma forths_run l p q w :
  calls (forths (length l)) (config p (q ++ rev l) w)
  = config (p ++ l) q (fold_left redone l w).
Proof.
  revert p w. induction l as [|c l IH]; intros p w.
  - rewrite !app_nil_r. reflexivity.
  - cbn [rev length]. rewrite app_assoc.
    rewrite forths_S.
    change ((q ++ rev l) ++ [c]) with (Py.append (q ++ rev l) c).
    rewrite calls_cons, state_after_forth, IH.
    unfold Py.append. rewrite <- app_assoc. reflexivity.
Qed.

Lemma backs_stay n q w :
  calls (backs n) (config [] q w) = config [] q w.
Proof.
  induction n as [|n IH]; [reflexivity|].
  rewrite backs_S, calls_cons, back_stays. exact IH.
Qed.

Lemma forths_stay n p w :
  calls (forths n) (config p [] w) = config p [] w.
Proof.
  induction n as [|n IH]; [reflexivity|].
  rewrite forths_S, calls_cons, forth_stays. exact IH.
Qed.

(** X10: a run of appends on any history: the instances are pushed in the
    order given on top of the applied stack, the redoable stack is dropped
    at the first one, and execute is called once per instance, in that
    order, each call on the context the one before left. *)
Theorem appends_in_order e l p q w :
  calls (appends (e :: l)) (config p q w)
  = config (p ++ e :: l) [] (fold_left executed (e :: l) w).
Proof.
  change (appends (e :: l)) with (append e :: appends l).
  rewrite calls_cons, state_after_append, appends_run.
  unfold Py.append. rewrite <- app_assoc. reflexivity.
Qed.

(** X11: as many back() calls as there are instances in [l], on applied
    stack [p ++ l]: the instances of [l] go to the redoable stack newest
    first (so the oldest ends on its top), and undo is called once per
    instance, newest first. *)
Theorem backs_newest_first l p q w :
  self (calls (backs (length l)) (config (p ++ l) q w))
  = {| _primary := p; _secondary := q ++ rev l |} /\
  context (calls (backs (length l)) (config (p ++ l) q w))
  = fold_left undone (rev l) w.
Proof. rewrite backs_run. split; reflexivity. Qed.

(** X12: as many forth() calls as there are instances in [l], when the
    redoable stack holds [rev l] on top: the instances return to the
    applied stack in the order of [l], and redo is called once per
    instance, in that order. *)
Theorem forths_oldest_first l p q w :
  self (calls (forths (length l)) (config p (q ++ rev l) w))
  = {| _primary := p ++ l; _secondary := q |} /\
  context (calls (forths (length l)) (config p (q ++ rev l) w))
  = fold_left redone l w.
Proof. rewrite forths_run. split; reflexivity. Qed.

(** The top [k] elements of a stack that holds at least [k]. *)
Lemma split_top {T} (k : nat) (xs : list T) :
  (k <= length xs)%nat -> exists ys zs, xs = ys ++ zs /\ length zs = k.
Proof.
  intros Hk.
  exists (firstn (length xs - k) xs), (skipn (length xs - k) xs).
  split; [symmetry; apply firstn_skipn|].
  rewrite length_skipn. lia.
Qed.

(** X13: k back() calls followed by k forth() calls, with k no larger
    than the number of applied instances, give back the two stacks as they
    were, whatever the commands do; and so do k forth() calls followed by
    k back() calls, with k no larger than the number of redoable
    instances. *)
Theorem backs_then_forths k p q w :
  ((k <= length p)%nat ->
   self (calls (backs k ++ forths k) (config p q w))
   = {| _primary := p; _secondary := q |}) /\
  ((k <= length q)%nat ->
   self (calls (forths k ++ backs k) (config p q w))
   = {| _primary := p; _secondary := q |}).
Proof.
  split; intros Hk.
  - destruct (split_top k p Hk) as (p1 & l & -> & <-).
    rewrite (calls_app (V:=V) (E:=E) (W:=W)), backs_run, forths_run.
    reflexivity.
  - destruct (split_top k q Hk) as (q1 & l & -> & <-).
    rewrite <- (rev_involutive l), length_rev.
    rewrite (calls_app (V:=V) (E:=E) (W:=W)), forths_run, backs_run.
    reflexivity.
Qed.

(** X14: on any history, back() calls beyond the bottom of the applied
    stack and forth() calls beyond the top of the redoable stack are
    refused without effect: with [k] calls too many the state is the one
    the right number of calls leaves, all instances on the redoable stack,
    or all on the applied stack. *)
Theorem surplus_calls_change_nothing p q k w :
  calls (backs (length p + k)) (config p q w)
  = calls (backs (length p)) (config p q w) /\
  self (calls (backs (length p + k)) (config p q w))
  = {| _primary := []; _secondary := q ++ rev p |} /\
  calls (forths (length q + k)) (config p q w)
  = calls (forths (length q)) (config p q w) /\
  self (calls (forths (length q + k)) (config p q w))
  = {| _primary := p ++ rev q; _secondary := [] |}.
Proof.
  pose proof (backs_run p [] q w) as Hb. cbn [app] in Hb.
  pose proof (forths_run (rev q) p [] w) as Hf.
  rewrite length_rev, rev_involutive in Hf. cbn [app] in Hf.
  unfold backs, forths in *. rewrite !repeat_app.
  rewrite !(calls_app (V:=V) (E:=E) (W:=W)), Hb, Hf.
  pose proof (backs_stay k (q ++ rev p) (fold_left undone (rev p) w)) as Sb.
  pose proof (forths_stay k (p ++ rev q) (fold_left redone (rev q) w)) as Sf.
  unfold backs, forths in *. rewrite Sb, Sf.
  repeat split.
Qed.

(** X15: forth() on an instance whose command inherits redo calls its
    execute again: the context forth() leaves is the one execute leaves,
    and forth() returns exactly when execute returns. *)
Theorem forth_with_inherited_redo p q c w :
  def_redo (command c) = None ->
  context (state_after forth (config p (Py.append q c) w)) = executed w c /\
  (raised (forth (config p (Py.append q c) w)) = None <->
   fst (effect (execute (command c) (args c) (kwargs c) w)) = None).
Proof.
  intros Hdef. rewrite state_after_forth, forth_run.
  unfold redone, executed, redo. rewrite Hdef. unfold Command_redo.
  destruct (execute (command c) (args c) (kwargs c) w);
    cbn; split; try reflexivity; split; congruence.
Qed.

(** X16: back() on an instance whose command does not define undo: the
    NotImplementedError of the base class comes out of back(), the context
    is untouched, and the instance has moved to the redoable stack all the
    same. *)
Theorem back_without_undo p c q w :
  def_undo (command c) = None ->
  back (config (Py.append p c) q w)
  = Raises (Propagated NotImplementedError) (config p (Py.append q c) w).
Proof.
  intros Hdef. rewrite back_run. unfold undo. rewrite Hdef. reflexivity.
Qed.
(** X17: the arguments given when the instance is built are the ones the
    history passes on: append, back and forth call execute, undo and redo
    of the instance's command with those positional and named arguments,
    on the context as it is at the call. *)
Theorem arguments_forwarded (cmd : Command V E W) a k p q w :
  context (state_after (append (CommandInstance__init__ cmd a k))
             (config p q w))
  = snd (effect (execute cmd a k w)) /\
  context (state_after back
             (config (Py.append p (CommandInstance__init__ cmd a k)) q w))
  = snd (effect (undo cmd a k w)) /\
  context (state_after forth
             (config p (Py.append q (CommandInstance__init__ cmd a k)) w))
  = snd (effect (redo cmd a k w)).
Proof.
  rewrite state_after_append, state_after_back, state_after_forth.
  repeat split.
Qed.

(** X18: a command whose class defines neither redo nor execute: redo
    ends in the NotImplementedError of the base class's execute and leaves
    the context untouched. *)
Theorem redo_needs_execute (cmd : Command V E W) a k w :
  def_redo cmd = None ->
  def_execute cmd = None ->
  redo cmd a k w = Failed NotImplementedError w.
Proof.
  intros Hredo Hexec. unfold redo. rewrite Hredo.
  unfold Command_redo, execute. rewrite Hexec. reflexivity.
Qed.
Lemma undo_fold l w :
  (forall c w0, In c l -> undone (executed w0 c) c = w0) ->
  fold_left undone (rev l) (fold_left executed l w) = w.
Proof.
  induction l as [|c l IH] using rev_ind; intros Hinv; [reflexivity|].
  rewrite fold_left_app, rev_unit. cbn [fold_left].
  rewrite Hinv by (apply in_or_app; right; left; reflexivity).
  apply IH. intros c' w0 Hin. apply Hinv, in_or_app. left. exact Hin.
Qed.

Lemma redo_fold l w :
  (forall c w0, In c l -> redone w0 c = executed w0 c) ->
  fold_left redone l w = fold_left executed l w.
Proof.
  revert w. induction l as [|c l IH]; intros w Hsame; [reflexivity|].
  cbn [fold_left]. rewrite Hsame by (left; reflexivity).
  apply IH. intros c' w0 Hin. apply Hsame. right. exact Hin.
Qed.

(** X19: undoing everything restores the context. When, for each
    appended instance, undo takes the context execute leaves back to the
    one execute found, and redo leaves the context execute leaves, then on
    a new history the appends followed by as many back() calls end on the
    initial context, and as many forth() calls after that end in the very
    state the appends alone leave. *)
Theorem reversible_commands_round_trip l w :
  (forall c w0, In c l -> undone (executed w0 c) c = w0) ->
  (forall c w0, In c l -> redone w0 c = executed w0 c) ->
  calls (appends l ++ backs (length l)) (fresh w) = config [] (rev l) w /\
  calls (appends l ++ backs (length l) ++ forths (length l)) (fresh w)
  = calls (appends l) (fresh w).
Proof.
  intros Hinv Hsame.
  rewrite !(calls_app (V:=V) (E:=E) (W:=W)).
  change (fresh w) with (config (V:=V) (E:=E) [] [] w).
  rewrite appends_run. cbn [app].
  pose proof (backs_run l [] [] (fold_left executed l w)) as Hb.
  cbn [app] in Hb. rewrite Hb, (undo_fold l w Hinv).
  split; [reflexivity|].
  pose proof (forths_run l [] [] w) as Hf.
  cbn [app] in Hf. rewrite Hf, (redo_fold l w Hsame). reflexivity.
Qed.
End Cursor.

(* ------------------------------------------------------------------ *)
(** ** The properties on the example clients *)

(** C1, as the specification words it (length 2, A and C kept), fails:
    with three Add instances the sequence leaves C alone, length 1. *)
Lemma branch_discard_length_two_fails :
  ~ (value (can_redo (calls (branch_calls Example.A Example.B Example.C)
                        (fresh 0))) = Some false /\
     value (__len__ (calls (branch_calls Example.A Example.B Example.C)
                       (fresh 0))) = Some 2).
Proof.
  intros [_ Hlen]. vm_compute in Hlen. discriminate Hlen.
Qed.

Lemma undo_redo_round_trip_witness :
  well_behaved Example.A 0 /\
  exists w1,
    append Example.A (fresh 0) = Returns tt (config [Example.A] [] w1) /\
    round_trip Example.A (fresh 0)
    = Returns (Some Example.A, true, false) (config [Example.A] [] w1).
Proof.
  assert (Hwb : well_behaved Example.A 0).
  { exists (Some 1), 1. split; [reflexivity|].
    split; [exists None|]; reflexivity. }
  split; [exact Hwb|].
  exact (undo_redo_round_trip Example.A 0 Hwb).
Defined.

Lemma command_failure_propagates_witness :
  append (Example.instance Example.Abstract 5) (config [] [Example.A] 0)
  = Raises (Propagated NotImplementedError)
      (config [Example.instance Example.Abstract 5] [] 0) /\
  back (config [Example.instance Example.OneWay 5] [] 5)
  = Raises (Propagated (ClientException "no undo"%string))
      (config [] [Example.instance Example.OneWay 5] 105) /\
  forth (config [] [Example.instance Example.OneWay 5] 0)
  = Raises (Propagated (ClientException "no redo"%string))
      (config [Example.instance Example.OneWay 5] [] 200).
Proof.
  split; [|split].
  - exact (proj1 (command_failure_propagates
                    (Example.instance Example.Abstract 5)
                    (Example.instance Example.Abstract 5)
                    [] [Example.A] 0 NotImplementedError 0)
             eq_refl).
  - exact (proj1 (proj2 (command_failure_propagates
                    (Example.instance Example.OneWay 5)
                    (Example.instance Example.OneWay 5)
                    [] [] 5 (ClientException "no undo"%string) 105))
             eq_refl).
  - exact (proj2 (proj2 (command_failure_propagates
                    (Example.instance Example.OneWay 5)
                    (Example.instance Example.OneWay 5)
                    [] [] 0 (ClientException "no redo"%string) 200))
             eq_refl).
Defined.

Lemma default_redo_is_execute_witness :
  def_redo Example.Add = None /\
  effect (redo Example.Add [5] [] 10) = effect (execute Example.Add [5] [] 10).
Proof.
  split; [reflexivity|].
  exact (default_redo_is_execute Example.Add [5] [] 10 eq_refl).
Defined.

(** The inherited redo is not execute itself: it drops the value execute
    returns. *)
Example default_redo_drops_value :
  execute Example.Add [5] [] 10 = Done (Some 15) 15 /\
  redo Example.Add [5] [] 10 = Done None 15.
Proof. split; reflexivity. Qed.

Lemma failed_undo_resting_place_witness :
  undo Example.OneWay [5] [] 5
  = Failed (ClientException "no undo"%string) 105 /\
  self (state_after back
          (config [Example.A; Example.instance Example.OneWay 5] [] 5))
  = {| _primary := [Example.A];
       _secondary := [Example.instance Example.OneWay 5] |} /\
  value (__len__ (state_after back
          (config [Example.A; Example.instance Example.OneWay 5] [] 5)))
  = Some 2 /\
  value (can_redo (state_after back
          (config [Example.A; Example.instance Example.OneWay 5] [] 5)))
  = Some true.
Proof.
  split; [reflexivity|].
  pose proof (failed_undo_resting_place
                [Example.A] (Example.instance Example.OneWay 5) [] 5
                (ClientException "no undo"%string) 105 eq_refl)
    as (Hself & _ & Hlen & Hredo).
  split; [exact Hself|]. split; [exact Hlen | exact Hredo].
Defined.

Lemma refusal_changes_nothing_witness :
  raised (back (config [] [Example.A] 0)) = Some NothingToUndoException /\
  state_after back (config [] [Example.A] 0) = config [] [Example.A] 0 /\
  raised (forth (config [Example.A] [] 1)) = Some NothingToRedoException /\
  state_after forth (config [Example.A] [] 1) = config [Example.A] [] 1.
Proof.
  split; [reflexivity|]. split.
  - exact (proj1 (refusal_changes_nothing (config [] [Example.A] 0))
             (or_intror eq_refl)).
  - split; [reflexivity|].
    exact (proj1 (proj2 (refusal_changes_nothing (config [Example.A] [] 1)))
             (or_intror eq_refl)).
Defined.

Lemma forth_with_inherited_redo_witness :
  def_redo (command Example.B) = None /\
  context (state_after forth (config [Example.A] [Example.B] 1)) = 3 /\
  raised (forth (config [Example.A] [Example.B] 1)) = None.
Proof.
  split; [reflexivity|].
  pose proof (forth_with_inherited_redo [Example.A] [] Example.B 1 eq_refl)
    as [Hctx Hret].
  split; [exact Hctx|]. apply Hret. reflexivity.
Defined.

Lemma back_without_undo_witness :
  def_undo (command (Example.instance Example.Abstract 5)) = None /\
  back (config [Example.A; Example.instance Example.Abstract 5] [] 1)
  = Raises (Propagated NotImplementedError)
      (config [Example.A] [Example.instance Example.Abstract 5] 1).
Proof.
  split; [reflexivity|].
  exact (back_without_undo [Example.A]
           (Example.instance Example.Abstract 5) [] 1 eq_refl).
Defined.

Lemma redo_needs_execute_witness :
  def_redo Example.Abstract = None /\
  def_execute Example.Abstract = None /\
  redo Example.Abstract [5] [] 7 = Failed NotImplementedError 7.
Proof.
  split; [reflexivity|]. split; [reflexivity|].
  exact (redo_needs_execute Example.Abstract [5] [] 7 eq_refl eq_refl).
Defined.

Lemma reversible_commands_round_trip_witness :
  calls (appends [Example.A; Example.B; Example.C] ++ backs 3) (fresh 10)
  = config [] [Example.C; Example.B; Example.A] 10 /\
  calls (appends [Example.A; Example.B; Example.C] ++ backs 3 ++ forths 3)
    (fresh 10)
  = config [Example.A; Example.B; Example.C] [] 16.
Proof.
  assert (Hinv : forall c w0, In c [Example.A; Example.B; Example.C] ->
                              undone (executed w0 c) c = w0).
  { intros c w0 [<- | [<- | [<- | []]]]; unfold undone, executed; cbn; lia. }
  assert (Hsame : forall c w0, In c [Example.A; Example.B; Example.C] ->
                               redone w0 c = executed w0 c).
  { intros c w0 [<- | [<- | [<- | []]]]; reflexivity. }
  exact (reversible_commands_round_trip
           [Example.A; Example.B; Example.C] 10 Hinv Hsame).
Defined.


(** C6, as the specification words it, asks forth() to succeed for every
    A. With an instance whose execute and undo return and whose redo
    raises, append() and back() return and forth() raises. *)
Lemma forth_after_back_can_raise :
  raised (append (Example.instance Example.NoRedo 5) (fresh 0)) = None /\
  raised (back (calls [append (Example.instance Example.NoRedo 5)]
                  (fresh 0))) = None /\
  raised (forth (calls [append (Example.instance Example.NoRedo 5); back]
                   (fresh 0)))
  = Some (Propagated (ClientException "no redo"%string)) /\
  ~ (exists u s',
       forth (calls [append (Example.instance Example.NoRedo 5); back]
                (fresh 0)) = Returns u s').
Proof.
  repeat split. intros (u & s' & Hret). discriminate Hret.
Qed.

Lemma redo_exhausted_witness :
  forth (calls [append Example.A; back] (fresh 0))
  = Returns tt (config [Example.A] [] 1) /\
  forth (calls [append (Example.instance Example.NoRedo 5); back] (fresh 0))
  = Raises (Propagated (ClientException "no redo"%string))
      (config [Example.instance Example.NoRedo 5] [] 0).
Proof.
  split.
  - exact (proj1 (redo_exhausted Example.A 0 (fresh 0)) None 1 eq_refl).
  - exact (proj1 (proj2 (redo_exhausted
                           (Example.instance Example.NoRedo 5) 0 (fresh 0)))
             (ClientException "no redo"%string) 0 eq_refl).
Defined.

Lemma backs_then_forths_witness :
  self (calls (backs 2 ++ forths 2)
          (config [Example.A; Example.B; Example.C] [Example.A] 6))
  = {| _primary := [Example.A; Example.B; Example.C];
       _secondary := [Example.A] |} /\
  self (calls (forths 1 ++ backs 1)
          (config [Example.A; Example.B] [Example.C] 3))
  = {| _primary := [Example.A; Example.B]; _secondary := [Example.C] |}.
Proof.
  split.
  - apply (proj1 (backs_then_forths 2
                    [Example.A; Example.B; Example.C] [Example.A] 6)).
    cbn. lia.
  - apply (proj2 (backs_then_forths 1
                    [Example.A; Example.B] [Example.C] 3)).
    cbn. lia.
Defined.
